(** * avatar2: the generic [Target] of [avatar2/targets/target.py]

    A shallow embedding of the [Target] class, of its guard decorator
    [action_valid_decorator_factory] and of the [update_state] / [wait]
    synchronisation, followed by the properties the specification states
    about them.

    Conventions of the embedding.
    - A method of [Target] is a computation in the monad [M]: it threads the
      target object, the state of the attached backends and the record of
      the backend methods called so far, and it ends with a value or with a
      raised exception.
    - The protocols (capabilities) are external objects.  They are known by
      their identity; what a call to one of their methods answers is given
      by an instance of the class [Backend].  A protocol object is an
      ordinary instance: it is truthy and it differs from [None].
    - A method of a protocol works on the state of the backends only; what
      the backends have to report to the target they report by
      [update_state], from a thread of their own.
    - [update_state] receives a member of the enumeration [TargetStates].
    - The parameters with a default value are passed by the caller.
    - Threads are modelled by interleaving: the thread inside [wait] advances
      by the steps of [waiter_step], the other threads by whole requests. *)

From Stdlib Require Import ZArith String.
From stdpp Require Import strings gmap list.

Set Warnings "-register-all".

(** ** Python values and exceptions *)

(** [class TargetStates(Enum)] *)
Inductive TargetStates : Type :=
| CREATED | INITIALIZED | STOPPED | RUNNING | SYNCHING | EXITED.

Definition TargetStates_value (s : TargetStates) : Z :=
  match s with
  | CREATED => 0x1
  | INITIALIZED => 0x2
  | STOPPED => 0x4
  | RUNNING => 0x8
  | SYNCHING => 0x10
  | EXITED => 0x20
  end%Z.

(** [TargetStates(s).name] *)
Definition TargetStates_name (s : TargetStates) : string :=
  match s with
  | CREATED => "CREATED"
  | INITIALIZED => "INITIALIZED"
  | STOPPED => "STOPPED"
  | RUNNING => "RUNNING"
  | SYNCHING => "SYNCHING"
  | EXITED => "EXITED"
  end.

(** [str(TargetStates(s))] *)
Definition TargetStates_str (s : TargetStates) : string :=
  "TargetStates." +:+ TargetStates_name s.

#[global] Instance TargetStates_eq_dec : EqDecision TargetStates.
Proof. solve_decision. Defined.

(** The values that travel through the facade: arguments, results and the
    entries of the status dictionary. *)
Inductive PyVal : Type :=
| PNone
| PBool (b : bool)
| PInt (z : Z)
| PStr (s : string)
| PBytes (bs : list Z)
| PList (vs : list PyVal)
| PState (s : TargetStates).

Record Exn : Type := mkExn { exn_type : string; exn_msg : string }.

Definition Exception (msg : string) : Exn := mkExn "Exception" msg.
Definition AttributeError (msg : string) : Exn := mkExn "AttributeError" msg.

(** ** Protocols *)

(** A protocol object, by identity. *)
Definition Protocol : Type := nat.

(** The methods the target calls on its protocols, with their arguments in
    the order of the call. *)
Inductive Call : Type :=
| call_cont
| call_stop
| call_step
| call_write_memory (address size value num_words raw : PyVal)
| call_read_memory (address size words raw : PyVal)
| call_write_register (register value : PyVal)
| call_read_register (register : PyVal)
| call_set_breakpoint (line hardware temporary regex condition ignore_count thread : PyVal)
| call_set_watchpoint (variable write read : PyVal)
| call_remove_breakpoint (bkptno : PyVal)
| call_shutdown.

Definition method_name (c : Call) : string :=
  match c with
  | call_cont => "cont"
  | call_stop => "stop"
  | call_step => "step"
  | call_write_memory _ _ _ _ _ => "write_memory"
  | call_read_memory _ _ _ _ => "read_memory"
  | call_write_register _ _ => "write_register"
  | call_read_register _ => "read_register"
  | call_set_breakpoint _ _ _ _ _ _ _ => "set_breakpoint"
  | call_set_watchpoint _ _ _ => "set_watchpoint"
  | call_remove_breakpoint _ => "remove_breakpoint"
  | call_shutdown => "shutdown"
  end.

(** How a method of a protocol ends. *)
Inductive Outcome : Type :=
| Returns (v : PyVal)
| Throws (e : Exn).

(** The backends: a state of their own and the answer of every method of
    every protocol object in that state. *)
Class Backend (B : Type) : Type :=
  { invoke : Protocol -> Call -> B -> Outcome * B }.

(** ** The target object *)

(** The six protocol attributes of a target. *)
Inductive Attr : Type :=
| exec_attr | memory_attr | register_attr
| signal_attr | monitor_attr | remote_memory_attr.

Definition attr_name (a : Attr) : string :=
  match a with
  | exec_attr => "_exec_protocol"
  | memory_attr => "_memory_protocol"
  | register_attr => "_register_protocol"
  | signal_attr => "_signal_protocol"
  | monitor_attr => "_monitor_protocol"
  | remote_memory_attr => "_remote_memory_protocol"
  end.

#[global] Instance Attr_eq_dec : EqDecision Attr.
Proof. solve_decision. Defined.

(** What [__init__] reads from the [avatar] it is given. *)
Record Avatar : Type := mkAvatar
  { arch : PyVal;
    avatar_log_name : string;
    output_directory : string }.

Record Target : Type := mkTarget
  { state : TargetStates;
    name : string;
    avatar : Avatar;
    status : gmap string PyVal;
    _arch : PyVal;
    _exec_protocol : option Protocol;
    _memory_protocol : option Protocol;
    _register_protocol : option Protocol;
    _signal_protocol : option Protocol;
    _monitor_protocol : option Protocol;
    _remote_memory_protocol : option Protocol;
    (** the flag of the [threading.Event] *)
    _no_state_update_pending : bool;
    (** the logger: its name, the file of its handler, and the records
        emitted through [log.info], oldest first *)
    log_name : string;
    log_file : string;
    log : list string }.

(** [Target.__init__(self, name, avatar)] *)
Definition __init__ (name : string) (avatar : Avatar) : Target :=
  {| state := CREATED;
     name := name;
     avatar := avatar;
     status := ∅;
     _arch := arch avatar;
     _exec_protocol := None;
     _memory_protocol := None;
     _register_protocol := None;
     _signal_protocol := None;
     _monitor_protocol := None;
     _remote_memory_protocol := None;
     _no_state_update_pending := false;
     log_name := avatar_log_name avatar +:+ ".targets." +:+ name;
     log_file := output_directory avatar +:+ "/" +:+ name +:+ ".log";
     log := [] |}.

(** [getattr(self, protocol)] for a protocol attribute. *)
Definition getattr (self : Target) (a : Attr) : option Protocol :=
  match a with
  | exec_attr => _exec_protocol self
  | memory_attr => _memory_protocol self
  | register_attr => _register_protocol self
  | signal_attr => _signal_protocol self
  | monitor_attr => _monitor_protocol self
  | remote_memory_attr => _remote_memory_protocol self
  end.

(** [setattr(self, protocol, v)] for a protocol attribute. *)
Definition setattr (self : Target) (a : Attr) (v : option Protocol) : Target :=
  {| state := state self;
     name := name self;
     avatar := avatar self;
     status := status self;
     _arch := _arch self;
     _exec_protocol := if decide (a = exec_attr) then v else _exec_protocol self;
     _memory_protocol := if decide (a = memory_attr) then v else _memory_protocol self;
     _register_protocol := if decide (a = register_attr) then v else _register_protocol self;
     _signal_protocol := if decide (a = signal_attr) then v else _signal_protocol self;
     _monitor_protocol := if decide (a = monitor_attr) then v else _monitor_protocol self;
     _remote_memory_protocol :=
       if decide (a = remote_memory_attr) then v else _remote_memory_protocol self;
     _no_state_update_pending := _no_state_update_pending self;
     log_name := log_name self;
     log_file := log_file self;
     log := log self |}.

Definition set_state (self : Target) (s : TargetStates) : Target :=
  {| state := s;
     name := name self;
     avatar := avatar self;
     status := status self;
     _arch := _arch self;
     _exec_protocol := _exec_protocol self;
     _memory_protocol := _memory_protocol self;
     _register_protocol := _register_protocol self;
     _signal_protocol := _signal_protocol self;
     _monitor_protocol := _monitor_protocol self;
     _remote_memory_protocol := _remote_memory_protocol self;
     _no_state_update_pending := _no_state_update_pending self;
     log_name := log_name self;
     log_file := log_file self;
     log := log self |}.

Definition set_status (self : Target) (d : gmap string PyVal) : Target :=
  {| state := state self;
     name := name self;
     avatar := avatar self;
     status := d;
     _arch := _arch self;
     _exec_protocol := _exec_protocol self;
     _memory_protocol := _memory_protocol self;
     _register_protocol := _register_protocol self;
     _signal_protocol := _signal_protocol self;
     _monitor_protocol := _monitor_protocol self;
     _remote_memory_protocol := _remote_memory_protocol self;
     _no_state_update_pending := _no_state_update_pending self;
     log_name := log_name self;
     log_file := log_file self;
     log := log self |}.

(** [Event.set()] and [Event.clear()] on [self._no_state_update_pending] *)
Definition set_flag (self : Target) (b : bool) : Target :=
  {| state := state self;
     name := name self;
     avatar := avatar self;
     status := status self;
     _arch := _arch self;
     _exec_protocol := _exec_protocol self;
     _memory_protocol := _memory_protocol self;
     _register_protocol := _register_protocol self;
     _signal_protocol := _signal_protocol self;
     _monitor_protocol := _monitor_protocol self;
     _remote_memory_protocol := _remote_memory_protocol self;
     _no_state_update_pending := b;
     log_name := log_name self;
     log_file := log_file self;
     log := log self |}.

(** [self.log.info(msg)] *)
Definition log_info (self : Target) (msg : string) : Target :=
  {| state := state self;
     name := name self;
     avatar := avatar self;
     status := status self;
     _arch := _arch self;
     _exec_protocol := _exec_protocol self;
     _memory_protocol := _memory_protocol self;
     _register_protocol := _register_protocol self;
     _signal_protocol := _signal_protocol self;
     _monitor_protocol := _monitor_protocol self;
     _remote_memory_protocol := _remote_memory_protocol self;
     _no_state_update_pending := _no_state_update_pending self;
     log_name := log_name self;
     log_file := log_file self;
     log := log self ++ [msg] |}.

(** ** The monad of the methods *)

(** How a method ends. *)
Inductive Result (A : Type) : Type :=
| Ok (a : A)
| Raise (e : Exn).
Arguments Ok {A} a.
Arguments Raise {A} e.

(** What a method runs in: the target, the backends, and the calls made to
    the protocols so far, oldest first. *)
Record World (B : Type) : Type := mkWorld
  { tgt : Target;
    backend : B;
    calls : list (Protocol * Call) }.
Arguments mkWorld {B} _ _ _.
Arguments tgt {B} _.
Arguments backend {B} _.
Arguments calls {B} _.

Definition M (B A : Type) : Type := World B -> Result A * World B.

Section Monad.
Context {B : Type}.

Definition ret {A} (a : A) : M B A := fun w => (Ok a, w).

Definition raise {A} (e : Exn) : M B A := fun w => (Raise e, w).

Definition bind {A C} (m : M B A) (k : A -> M B C) : M B C :=
  fun w =>
    match m w with
    | (Ok a, w') => k a w'
    | (Raise e, w') => (Raise e, w')
    end.

(** reading [self] *)
Definition self_ : M B Target := fun w => (Ok (tgt w), w).

(** an assignment to an attribute of [self] *)
Definition update (f : Target -> Target) : M B unit :=
  fun w => (Ok tt, mkWorld (f (tgt w)) (backend w) (calls w)).
End Monad.

Notation "'let*' x ':=' c1 'in' c2" := (bind c1 (fun x => c2))
  (at level 10, x name, c1 at level 100, c2 at level 200).
Notation "c1 ';;' c2" := (bind c1 (fun _ => c2))
  (at level 100, c2 at level 200, right associativity).

(** The end of a protocol method, as the end of the method of the target
    that returns it. *)
Definition outcome_result (o : Outcome) : Result PyVal :=
  match o with
  | Returns v => Ok v
  | Throws e => Raise e
  end.

Section Target.
Context {B : Type} `{Backend B}.

(** [p.method(args)] on a protocol object [p] *)
Definition call (p : Protocol) (c : Call) : M B PyVal :=
  fun w =>
    let '(o, b') := invoke p c (backend w) in
    (outcome_result o, mkWorld (tgt w) b' (calls w ++ [(p, c)])).

(** [x.method(args)] where [x] is the value of a protocol attribute *)
Definition call_on (x : option Protocol) (c : Call) : M B PyVal :=
  match x with
  | Some p => call p c
  | None =>
      raise (AttributeError
               ("'NoneType' object has no attribute '" +:+ method_name c +:+ "'"))
  end.

(** *** The guard *)

(** [action_valid_decorator_factory(state, protocol)(func)]; [func_name] is
    [func.__name__]. *)
Definition action_valid_decorator_factory {A}
    (state_ : TargetStates) (protocol : Attr)
    (func_name : string) (func : M B A) : M B A :=
  let* self := self_ in
  match getattr self protocol with
  | None =>
      raise (Exception
               (func_name +:+ "() requested but " +:+ attr_name protocol
                          +:+ " is undefined."))
  | Some _ =>
      if decide (state self ≠ state_) then
        raise (Exception
                 (func_name +:+ "() requested but Target is "
                            +:+ TargetStates_name (state self)))
      else func
  end.

(** *** Lifecycle *)

(** [Target.init]: [pass] *)
Definition init : M B unit := ret tt.

(** One [if self.<attr>: self.<attr>.shutdown(); self.<attr> = None]. *)
Definition shutdown_attr (a : Attr) : M B unit :=
  let* self := self_ in
  match getattr self a with
  | Some p =>
      call p call_shutdown ;;
      update (fun self => setattr self a None)
  | None => ret tt
  end.

(** [Target.shutdown] *)
Definition shutdown : M B unit :=
  shutdown_attr exec_attr ;;
  shutdown_attr memory_attr ;;
  shutdown_attr register_attr ;;
  shutdown_attr signal_attr ;;
  shutdown_attr monitor_attr ;;
  shutdown_attr remote_memory_attr.

(** *** The guarded actions *)

Definition cont : M B PyVal :=
  action_valid_decorator_factory STOPPED exec_attr "cont"
    (update (fun self => set_flag self false) ;;
     let* self := self_ in
     call_on (_exec_protocol self) call_cont).

Definition stop : M B PyVal :=
  action_valid_decorator_factory RUNNING exec_attr "stop"
    (update (fun self => set_flag self false) ;;
     let* self := self_ in
     call_on (_exec_protocol self) call_stop).

Definition step : M B PyVal :=
  action_valid_decorator_factory STOPPED exec_attr "step"
    (update (fun self => set_flag self false) ;;
     let* self := self_ in
     call_on (_exec_protocol self) call_step).

Definition write_memory (address size value num_words raw : PyVal) : M B PyVal :=
  action_valid_decorator_factory STOPPED memory_attr "write_memory"
    (let* self := self_ in
     call_on (_memory_protocol self)
             (call_write_memory address size value num_words raw)).

Definition read_memory (address size words raw : PyVal) : M B PyVal :=
  action_valid_decorator_factory STOPPED memory_attr "read_memory"
    (let* self := self_ in
     call_on (_memory_protocol self) (call_read_memory address size words raw)).

Definition write_register (register value : PyVal) : M B PyVal :=
  action_valid_decorator_factory STOPPED register_attr "write_register"
    (let* self := self_ in
     call_on (_register_protocol self) (call_write_register register value)).

Definition read_register (register : PyVal) : M B PyVal :=
  action_valid_decorator_factory STOPPED register_attr "read_register"
    (let* self := self_ in
     call_on (_register_protocol self) (call_read_register register)).

Definition set_breakpoint
    (line hardware temporary regex condition ignore_count thread : PyVal)
    : M B PyVal :=
  action_valid_decorator_factory STOPPED exec_attr "set_breakpoint"
    (let* self := self_ in
     call_on (_exec_protocol self)
             (call_set_breakpoint line hardware temporary regex condition
                                  ignore_count thread)).

Definition set_watchpoint (variable write read : PyVal) : M B PyVal :=
  action_valid_decorator_factory STOPPED exec_attr "set_watchpoint"
    (let* self := self_ in
     call_on (_exec_protocol self) (call_set_watchpoint variable write read)).

Definition remove_breakpoint (bkptno : PyVal) : M B PyVal :=
  action_valid_decorator_factory STOPPED exec_attr "remove_breakpoint"
    (let* self := self_ in
     call_on (_exec_protocol self) (call_remove_breakpoint bkptno)).

(** *** State and status *)

(** [Target.update_state(self, state)] *)
Definition update_state (state_ : TargetStates) : M B unit :=
  update (fun self =>
            log_info self ("State changed to to " +:+ TargetStates_str state_)) ;;
  update (fun self => set_state self state_) ;;
  update (fun self => set_flag self true).

(** [Target.get_status]: the dictionary it returns is [self.status]
    itself, given here by its content at the return. *)
Definition get_status : M B (gmap string PyVal) :=
  update (fun self =>
            set_status self (<["state" := PState (state self)]> (status self))) ;;
  let* self := self_ in
  ret (status self).

(** The generic aliases [wr], [rr], [rm] and [wm]. *)
Definition wr := write_register.
Definition rr := read_register.
Definition rm := read_memory.
Definition wm := write_memory.
End Target.

(** ** The action surface as a table *)

(** A request for one of the guarded actions, with its arguments. *)
Inductive Action : Type :=
| do_cont
| do_stop
| do_step
| do_write_memory (address size value num_words raw : PyVal)
| do_read_memory (address size words raw : PyVal)
| do_write_register (register value : PyVal)
| do_read_register (register : PyVal)
| do_set_breakpoint (line hardware temporary regex condition ignore_count thread : PyVal)
| do_set_watchpoint (variable write read : PyVal)
| do_remove_breakpoint (bkptno : PyVal).

(** The method of [Target] an action request runs. *)
Definition perform {B : Type} `{Backend B} (a : Action) : M B PyVal :=
  match a with
  | do_cont => cont
  | do_stop => stop
  | do_step => step
  | do_write_memory address size value num_words raw =>
      write_memory address size value num_words raw
  | do_read_memory address size words raw => read_memory address size words raw
  | do_write_register register value => write_register register value
  | do_read_register register => read_register register
  | do_set_breakpoint line hardware temporary regex condition ignore_count thread =>
      set_breakpoint line hardware temporary regex condition ignore_count thread
  | do_set_watchpoint variable write read => set_watchpoint variable write read
  | do_remove_breakpoint bkptno => remove_breakpoint bkptno
  end.

Definition action_name (a : Action) : string :=
  match a with
  | do_cont => "cont"
  | do_stop => "stop"
  | do_step => "step"
  | do_write_memory _ _ _ _ _ => "write_memory"
  | do_read_memory _ _ _ _ => "read_memory"
  | do_write_register _ _ => "write_register"
  | do_read_register _ => "read_register"
  | do_set_breakpoint _ _ _ _ _ _ _ => "set_breakpoint"
  | do_set_watchpoint _ _ _ => "set_watchpoint"
  | do_remove_breakpoint _ => "remove_breakpoint"
  end.

(** The table of the specification (section 4.3), column "Required state". *)
Definition spec_required_state (a : Action) : TargetStates :=
  match a with
  | do_stop => RUNNING
  | _ => STOPPED
  end.

(** The table of the specification (section 4.3), column "Required
    capability". *)
Definition spec_required_capability (a : Action) : Attr :=
  match a with
  | do_cont | do_stop | do_step => exec_attr
  | do_write_memory _ _ _ _ _ | do_read_memory _ _ _ _ => memory_attr
  | do_write_register _ _ | do_read_register _ => register_attr
  | do_set_breakpoint _ _ _ _ _ _ _ | do_set_watchpoint _ _ _
  | do_remove_breakpoint _ => exec_attr
  end.

(** The table of the specification (section 4.3), column "Behavior": the
    request that is forwarded, and whether the flag is cleared before. *)
Definition spec_forwarded (a : Action) : Call :=
  match a with
  | do_cont => call_cont
  | do_stop => call_stop
  | do_step => call_step
  | do_write_memory address size value num_words raw =>
      call_write_memory address size value num_words raw
  | do_read_memory address size words raw => call_read_memory address size words raw
  | do_write_register register value => call_write_register register value
  | do_read_register register => call_read_register register
  | do_set_breakpoint line hardware temporary regex condition ignore_count thread =>
      call_set_breakpoint line hardware temporary regex condition ignore_count thread
  | do_set_watchpoint variable write read => call_set_watchpoint variable write read
  | do_remove_breakpoint bkptno => call_remove_breakpoint bkptno
  end.

Definition spec_clears_flag (a : Action) : bool :=
  match a with
  | do_cont | do_stop | do_step => true
  | _ => false
  end.

(** The two precondition errors of the specification, as the exceptions the
    guard raises for them. *)
Definition capability_unavailable (a : Action) : Exn :=
  Exception (action_name a +:+ "() requested but "
               +:+ attr_name (spec_required_capability a) +:+ " is undefined.").

Definition wrong_state (a : Action) (actual : TargetStates) : Exn :=
  Exception (action_name a +:+ "() requested but Target is "
               +:+ TargetStates_name actual).

(** ** Threads: [wait] against the rest of the program *)

(** What another thread may ask of the target while one thread is inside
    [wait]. *)
Inductive Request : Type :=
| req_init
| req_shutdown
| req_action (a : Action)
| req_update_state (s : TargetStates)
| req_get_status.

Definition serve {B : Type} `{Backend B} (r : Request) (w : World B) : World B :=
  match r with
  | req_init => snd (init w)
  | req_shutdown => snd (shutdown w)
  | req_action a => snd (perform a w)
  | req_update_state s => snd (update_state s w)
  | req_get_status => snd (get_status w)
  end.

(** Where the thread inside [wait] stands.  [returned t]: the loop has been
    left, and [t] is the target as it was at that instant. *)
Inductive WaitPc : Type :=
| at_event_wait   (* before [self._no_state_update_pending.wait(.1)] *)
| at_read_state   (* before [self.state == TargetStates.STOPPED] *)
| at_read_flag    (* before [self._no_state_update_pending.is_set()] *)
| returned (self_at_return : Target).

(** One step of [Target.wait].  [Event.wait(.1)] ends when the flag is set or
    when its timeout expires, so it always ends; its result is not used.
    The operands of [and] are evaluated in order, the second only when the
    first is true. *)
Definition waiter_step (self : Target) (pc : WaitPc) : WaitPc :=
  match pc with
  | at_event_wait => at_read_state
  | at_read_state =>
      if decide (state self = STOPPED) then at_read_flag else at_event_wait
  | at_read_flag =>
      if _no_state_update_pending self then returned self else at_event_wait
  | returned t => returned t
  end.

(** Who runs next. *)
Inductive Tick : Type :=
| Waiter
| Other (r : Request).

Definition tick {B : Type} `{Backend B}
    (c : World B * WaitPc) (k : Tick) : World B * WaitPc :=
  match k with
  | Waiter => (fst c, waiter_step (tgt (fst c)) (snd c))
  | Other r => (serve r (fst c), snd c)
  end.

(** The program under a schedule, from a configuration. *)
Definition run {B : Type} `{Backend B}
    (sched : list Tick) (c : World B * WaitPc) : World B * WaitPc :=
  fold_left tick sched c.

(** [wait()] called in world [w], under a schedule. *)
Definition wait_under {B : Type} `{Backend B}
    (sched : list Tick) (w : World B) : World B * WaitPc :=
  run sched (w, at_event_wait).

(** ** Text search, to say what a message names *)

Fixpoint contains (needle hay : string) : bool :=
  String.prefix needle hay
  || match hay with
     | EmptyString => false
     | String _ rest => contains needle rest
     end.

(** ** Concrete backends, to run the model *)

(** Every method of every protocol returns [None]. *)
Definition quiet_backend : Backend unit :=
  {| invoke := fun _ _ b => (Returns PNone, b) |}.

(** The protocol object [1] fails in [shutdown]; every other call returns
    [True]. *)
Definition failing_backend : Backend unit :=
  {| invoke := fun p c b =>
       match p, c with
       | 1, call_shutdown => (Throws (mkExn "RuntimeError" "connection lost"), b)
       | _, _ => (Returns (PBool true), b)
       end |}.

(** A freshly created target called [t0], and the same after the attachment
    of the protocol objects 1 (execution) and 2 (memory). *)
Definition fresh : Target :=
  __init__ "t0" (mkAvatar (PStr "ARM") "avatar" "/tmp/out").

Definition attached : Target :=
  setattr (setattr fresh exec_attr (Some 1)) memory_attr (Some 2).

(** A target whose memory protocol is the object that fails in [shutdown],
    between an execution protocol and a register protocol that do not. *)
Definition flaky : Target :=
  setattr (setattr (setattr fresh exec_attr (Some 2)) memory_attr (Some 1))
          register_attr (Some 3).

Definition world_of (self : Target) : World unit := mkWorld self tt [].

(** ** Vocabulary of the statements *)

(** The world in which the body of an action makes its call. *)
Definition before_call {B : Type} (a : Action) (w : World B) : World B :=
  if spec_clears_flag a
  then mkWorld (set_flag (tgt w) false) (backend w) (calls w)
  else w.

(** The world a call leaves. *)
Definition after_call {B : Type} `{Backend B}
    (p : Protocol) (c : Call) (w : World B) : World B :=
  mkWorld (tgt w) (snd (invoke p c (backend w))) (calls w ++ [(p, c)]).

(** The protocol attributes, in the order in which [shutdown] visits them. *)
Definition all_attrs : list Attr :=
  [exec_attr; memory_attr; register_attr;
   signal_attr; monitor_attr; remote_memory_attr].

(** [shutdown] restricted to some attributes, in the order of the list. *)
Fixpoint shutdown_attrs {B : Type} `{Backend B} (l : list Attr) : M B unit :=
  match l with
  | [] => ret tt
  | a :: l' => shutdown_attr a ;; shutdown_attrs l'
  end.

(** One [shutdown] call for each of the attributes of the list that holds a
    protocol, in the order of the list. *)
Definition teardown_calls (self : Target) (l : list Attr) : list (Protocol * Call) :=
  omap (fun a => option_map (fun p => (p, call_shutdown)) (getattr self a)) l.

(** The target with the attributes of the list emptied. *)
Definition detach (l : list Attr) (self : Target) : Target :=
  fold_left (fun self a => setattr self a None) l self.

Definition has_returned (pc : WaitPc) : bool :=
  match pc with
  | returned _ => true
  | _ => false
  end.

(** A stopped target with its protocols attached, after a [cont()]: the
    flag is cleared and the backend has not reported yet. *)
Definition after_cont : World unit :=
  snd (cont (H := quiet_backend) (world_of (set_state attached STOPPED))).

(** The thread in [wait] lets [Event.wait] time out and reads the state;
    the backend reports RUNNING; the thread reads the flag. *)
Definition racing_schedule : list Tick :=
  [Waiter; Waiter; Other (req_update_state RUNNING); Waiter].

(** A sequence of requests, served one after the other. *)
Definition serve_all {B : Type} `{Backend B}
    (reqs : list Request) (w : World B) : World B :=
  fold_left (fun w r => serve r w) reqs w.

Definition is_update_state (r : Request) : bool :=
  match r with
  | req_update_state _ => true
  | _ => false
  end.

(** The requests whose method body clears the flag. *)
Definition is_run_control (r : Request) : bool :=
  match r with
  | req_action do_cont | req_action do_stop | req_action do_step => true
  | _ => false
  end.


(** Ticks of a schedule in which another thread calls [update_state], and
    those in which it reports STOPPED. *)
Definition reports (k : Tick) : bool :=
  match k with
  | Other (req_update_state _) => true
  | _ => false
  end.

Definition reports_stopped (k : Tick) : bool :=
  match k with
  | Other (req_update_state STOPPED) => true
  | _ => false
  end.

(** Ticks that neither report a state nor run [cont], [stop] or [step]. *)
Definition leaves_wait_alone (k : Tick) : bool :=
  match k with
  | Waiter => true
  | Other r => negb (is_update_state r) && negb (is_run_control r)
  end.

(** The number of steps the thread in [wait] takes in a schedule. *)
Definition waiter_ticks (sched : list Tick) : nat :=
  length (List.filter (fun k => match k with Waiter => true | Other _ => false end)
                      sched).

(** The steps the thread in [wait] still needs with both observations
    true. *)
Definition steps_to_return (pc : WaitPc) : nat :=
  match pc with
  | at_event_wait => 3
  | at_read_state => 2
  | at_read_flag => 1
  | returned _ => 0
  end.

Definition is_shutdown (r : Request) : bool :=
  match r with
  | req_shutdown => true
  | _ => false
  end.

(** The attributes of a target that hold the protocol object [p]. *)
Definition holders (p : Protocol) (self : Target) : list Attr :=
  filter (fun a => getattr self a = Some p) all_attrs.

(** The calls of a record that were made to the protocol object [p]. *)
Definition calls_to (p : Protocol) (cs : list (Protocol * Call)) :
    list (Protocol * Call) :=
  filter (fun c => fst c = p) cs.

(** A target on which one protocol object, 7, serves execution, memory and
    registers. *)
Definition shared : Target :=
  setattr (setattr (setattr fresh exec_attr (Some 7)) memory_attr (Some 7))
          register_attr (Some 7).

(** Sample inputs: the attached target once STOPPED, the same with a note
    of the caller in its status, a read of one word, and two schedules in
    which other threads run beside the thread in [wait]. *)
Definition stopped : Target := set_state attached STOPPED.

Definition annotated : Target :=
  set_status attached (<["note" := PStr "bench 3"]> ∅).

Definition read_word : Action :=
  do_read_memory (PInt 0x1000) (PInt 4) (PInt 1) (PBool false).

Definition exiting_schedule : list Tick :=
  [Waiter; Other (req_update_state RUNNING); Waiter; Waiter;
   Other (req_update_state EXITED); Waiter; Waiter; Other req_get_status; Waiter].

Definition reading_schedule : list Tick :=
  [Waiter; Other req_get_status; Waiter; Other (req_action read_word); Waiter].

(** * Properties *)

(** ** The facade, action by action *)

Section Facade.
Context {B : Type} `{Backend B}.

Lemma call_unfold (p : Protocol) (c : Call) (w : World B) :
  call p c w = (outcome_result (fst (invoke p c (backend w))), after_call p c w).
Proof.
  unfold call, after_call. destruct (invoke p c (backend w)) as [o b'].
  by destruct o.
Qed.

(** Every method of the action surface is the guard of its table row
    around the forwarding of its table row. *)
Lemma perform_unfold (a : Action) (w : World B) :
  perform a w =
    match getattr (tgt w) (spec_required_capability a) with
    | None => (Raise (capability_unavailable a), w)
    | Some p =>
        if decide (state (tgt w) = spec_required_state a)
        then call p (spec_forwarded a) (before_call a w)
        else (Raise (wrong_state a (state (tgt w))), w)
    end.
Proof.
  destruct w as [self b cs].
  destruct a; cbn -[call];
    unfold action_valid_decorator_factory, bind, self_, raise, update;
    cbn -[call];
    match goal with
    | |- context [match ?x with Some _ => _ | None => _ end] =>
        destruct x as [p|] eqn:Hslot
    end; try reflexivity;
    repeat case_decide; try congruence; try reflexivity;
    cbn -[call]; rewrite ?Hslot; reflexivity.
Qed.
End Facade.

(** ** The guard *)

Section Guard.
Context {B : Type} `{Backend B}.

(** C1.  The guard of every action tests in a fixed order.  With the
    required protocol attribute empty the action fails with the
    capability-unavailable error, whatever the state.  Otherwise, with a
    state other than the required one, it fails with the wrong-state
    error.  Otherwise the body runs: the request of the action is made to
    the protocol object found in the attribute. *)
Theorem guard_checks_in_order (a : Action) (w : World B) :
  (getattr (tgt w) (spec_required_capability a) = None ->
     perform a w = (Raise (capability_unavailable a), w))
  /\ (forall p : Protocol,
        getattr (tgt w) (spec_required_capability a) = Some p ->
        state (tgt w) <> spec_required_state a ->
        perform a w = (Raise (wrong_state a (state (tgt w))), w))
  /\ (forall p : Protocol,
        getattr (tgt w) (spec_required_capability a) = Some p ->
        state (tgt w) = spec_required_state a ->
        perform a w = call p (spec_forwarded a) (before_call a w)).
Proof.
  rewrite perform_unfold.
  destruct (getattr (tgt w) (spec_required_capability a)) as [q|].
  - split; [discriminate|].
    split; intros p [= <-] Hst; case_decide; congruence.
  - split; [reflexivity|]. split; discriminate.
Qed.

(** C5.  An action whose precondition fails raises and leaves everything
    as it was: the target (state, status, protocol attributes, flag), the
    backends, and the record of the calls made to them. *)
Theorem failed_precondition_changes_nothing (a : Action) (w : World B) :
  getattr (tgt w) (spec_required_capability a) = None
  \/ state (tgt w) <> spec_required_state a ->
  exists e : Exn,
    perform a w = (Raise e, w)
    /\ (e = capability_unavailable a \/ e = wrong_state a (state (tgt w))).
Proof.
  intros Hpre. rewrite perform_unfold.
  destruct (getattr (tgt w) (spec_required_capability a)) as [q|].
  - destruct Hpre as [Hpre|Hpre]; [discriminate|].
    case_decide; [congruence|]. eauto.
  - eauto.
Qed.

(** C6, as the code has it.  With the protocol attached and the state
    other than the required one, the message of the error is
    "<action>() requested but Target is <ACTUAL>": it names the action
    and the actual state, and it does not name the required state. *)
Theorem wrong_state_error_names_action_and_actual
    (a : Action) (w : World B) (p : Protocol) :
  getattr (tgt w) (spec_required_capability a) = Some p ->
  state (tgt w) <> spec_required_state a ->
  exists msg : string,
    perform a w = (Raise (Exception msg), w)
    /\ msg = action_name a +:+ "() requested but Target is "
               +:+ TargetStates_name (state (tgt w))
    /\ contains (action_name a) msg = true
    /\ contains (TargetStates_name (state (tgt w))) msg = true
    /\ contains (TargetStates_name (spec_required_state a)) msg = false.
Proof.
  intros Hslot Hst. eexists. split; [|split; [reflexivity|]].
  - rewrite perform_unfold, Hslot. case_decide; [congruence|]. reflexivity.
  - destruct (state (tgt w)); destruct a; cbn in Hst; try congruence;
      vm_compute; auto.
Qed.

(** C4.  Past their guard, [cont], [stop] and [step] clear the flag, make
    their request to the execution protocol, and end as that request ends,
    with its value or its exception.  The flag is cleared in both cases;
    nothing else of the target changes. *)
Theorem run_control_clears_then_forwards (w : World B) (p : Protocol) :
  _exec_protocol (tgt w) = Some p ->
  let forwarded (c : Call) :=
    (outcome_result (fst (invoke p c (backend w))),
     mkWorld (set_flag (tgt w) false)
             (snd (invoke p c (backend w)))
             (calls w ++ [(p, c)])) in
  (state (tgt w) = STOPPED -> cont w = forwarded call_cont)
  /\ (state (tgt w) = RUNNING -> stop w = forwarded call_stop)
  /\ (state (tgt w) = STOPPED -> step w = forwarded call_step).
Proof.
  intros Hslot forwarded. subst forwarded. cbv beta.
  pose proof (perform_unfold do_cont w) as Hc.
  pose proof (perform_unfold do_stop w) as Hs.
  pose proof (perform_unfold do_step w) as Ht.
  cbn [perform spec_required_capability spec_required_state spec_forwarded
       getattr] in Hc, Hs, Ht.
  rewrite Hslot in Hc, Hs, Ht.
  repeat split; intros Hst.
  - rewrite Hc, decide_True by done. by rewrite call_unfold.
  - rewrite Hs, decide_True by done. by rewrite call_unfold.
  - rewrite Ht, decide_True by done. by rewrite call_unfold.
Qed.
End Guard.

(** ** State and status *)

Section Status.
Context {B : Type} `{Backend B}.

Lemma update_state_unfold (S : TargetStates) (w : World B) :
  update_state S w =
    (Ok tt,
     mkWorld
       (set_flag
          (set_state
             (log_info (tgt w) ("State changed to to " +:+ TargetStates_str S)) S)
          true)
       (backend w) (calls w)).
Proof. reflexivity. Qed.

Lemma get_status_unfold (w : World B) :
  get_status w =
    (Ok (<["state" := PState (state (tgt w))]> (status (tgt w))),
     mkWorld
       (set_status (tgt w) (<["state" := PState (state (tgt w))]> (status (tgt w))))
       (backend w) (calls w)).
Proof. reflexivity. Qed.

(** C3.  [update_state(S)] ends normally with the state [S] and the flag
    set; the [get_status()] that follows returns the status dictionary
    with [S] under the key [state], the other keys being those the
    dictionary had. *)
Theorem update_state_then_get_status (S : TargetStates) (w : World B) :
  let w1 := snd (update_state S w) in
  fst (update_state S w) = Ok tt
  /\ state (tgt w1) = S
  /\ _no_state_update_pending (tgt w1) = true
  /\ exists m : gmap string PyVal,
       fst (get_status w1) = Ok m
       /\ m !! "state" = Some (PState S)
       /\ m = <["state" := PState S]> (status (tgt w)).
Proof.
  cbv zeta. rewrite update_state_unfold. cbn [fst snd tgt].
  repeat split. eexists. rewrite get_status_unfold. cbn.
  split; [reflexivity|]. split; [apply lookup_insert_eq | reflexivity].
Qed.

(** C9, as the code has it.  [get_status()] stores the current state
    under the key [state] of the status dictionary of the target and
    returns that dictionary.  Nothing else changes: not the state, the flag
    or a protocol attribute, not the backends, and no call is made.  A
    second [get_status()] returns the same and changes nothing. *)
Theorem get_status_writes_only_the_state_key (w : World B) :
  let m := <["state" := PState (state (tgt w))]> (status (tgt w)) in
  let w1 := snd (get_status w) in
  get_status w = (Ok m, mkWorld (set_status (tgt w) m) (backend w) (calls w))
  /\ state (tgt w1) = state (tgt w)
  /\ _no_state_update_pending (tgt w1) = _no_state_update_pending (tgt w)
  /\ (forall a : Attr, getattr (tgt w1) a = getattr (tgt w) a)
  /\ log (tgt w1) = log (tgt w)
  /\ backend w1 = backend w
  /\ calls w1 = calls w
  /\ get_status w1 = (Ok m, w1).
Proof.
  cbv zeta. rewrite get_status_unfold. cbn [fst snd].
  repeat split.
  rewrite get_status_unfold. cbn. by rewrite insert_insert_eq.
Qed.
End Status.

(** ** Shutdown *)

Lemma getattr_setattr (self : Target) (a x : Attr) (v : option Protocol) :
  getattr (setattr self a v) x = if decide (a = x) then v else getattr self x.
Proof. by destruct a, x. Qed.

Lemma setattr_same (self : Target) (a : Attr) (v : option Protocol) :
  getattr self a = v -> setattr self a v = self.
Proof. intros <-. by destruct self, a. Qed.

Lemma getattr_detach (l : list Attr) (self : Target) (x : Attr) :
  getattr (detach l self) x = if decide (x ∈ l) then None else getattr self x.
Proof.
  revert self. induction l as [|a l IH]; intros self; cbn.
  - case_decide as Hin; [by apply elem_of_nil in Hin | done].
  - rewrite IH, getattr_setattr.
    destruct (decide (x ∈ l)) as [Hl|Hl].
    + by rewrite decide_True by (by right).
    + destruct (decide (a = x)) as [->|Hne].
      * by rewrite decide_True by left.
      * rewrite decide_False; [done|].
        intros Hin. apply elem_of_cons in Hin as [->|?]; done.
Qed.

Lemma teardown_calls_setattr (self : Target) (a : Attr) (v : option Protocol)
    (l : list Attr) :
  a ∉ l -> teardown_calls (setattr self a v) l = teardown_calls self l.
Proof.
  induction l as [|x l IH]; intros Hnotin; [done|].
  apply not_elem_of_cons in Hnotin as [Hne Hl].
  unfold teardown_calls in *. cbn.
  rewrite getattr_setattr, decide_False by done. by rewrite IH.
Qed.

Lemma teardown_calls_cons (self : Target) (a : Attr) (l : list Attr) :
  teardown_calls self (a :: l) =
    match getattr self a with
    | Some p => (p, call_shutdown) :: teardown_calls self l
    | None => teardown_calls self l
    end.
Proof. unfold teardown_calls. cbn. by destruct (getattr self a). Qed.

Lemma teardown_calls_app (self : Target) (l1 l2 : list Attr) :
  teardown_calls self (l1 ++ l2) = teardown_calls self l1 ++ teardown_calls self l2.
Proof. unfold teardown_calls. apply omap_app. Qed.

Lemma all_attrs_NoDup : NoDup all_attrs.
Proof. apply (bool_decide_unpack _). by vm_compute. Qed.

Lemma elem_of_all_attrs (a : Attr) : a ∈ all_attrs.
Proof. destruct a; unfold all_attrs; set_solver. Qed.

Section Shutdown.
Context {B : Type} `{Backend B}.

Lemma shutdown_attr_unfold (a : Attr) (w : World B) :
  shutdown_attr a w =
    match getattr (tgt w) a with
    | None => (Ok tt, w)
    | Some p =>
        match fst (invoke p call_shutdown (backend w)) with
        | Returns _ =>
            (Ok tt,
             mkWorld (setattr (tgt w) a None)
                     (snd (invoke p call_shutdown (backend w)))
                     (calls w ++ [(p, call_shutdown)]))
        | Throws e => (Raise e, after_call p call_shutdown w)
        end
    end.
Proof.
  unfold shutdown_attr, bind, self_. cbn.
  destruct (getattr (tgt w) a) as [p|]; [|reflexivity].
  rewrite call_unfold.
  by destruct (fst (invoke p call_shutdown (backend w))).
Qed.

Lemma shutdown_as_list (w : World B) : shutdown w = shutdown_attrs all_attrs w.
Proof.
  unfold shutdown, all_attrs. cbn [shutdown_attrs]. unfold bind, ret.
  repeat match goal with
         | |- context [match ?m ?x with pair _ _ => _ end] =>
             destruct (m x) as [[[]|?] ?]; try reflexivity
         end.
Qed.

Lemma shutdown_attrs_empty (l : list Attr) (w : World B) :
  (forall a : Attr, getattr (tgt w) a = None) ->
  shutdown_attrs l w = (Ok tt, w).
Proof.
  intros Hempty. induction l as [|a l IH]; [reflexivity|].
  cbn [shutdown_attrs]. unfold bind.
  by rewrite shutdown_attr_unfold, Hempty.
Qed.

(** A teardown that ends normally has visited the whole list. *)
Lemma shutdown_attrs_ok (l : list Attr) (w w' : World B) :
  NoDup l ->
  shutdown_attrs l w = (Ok tt, w') ->
  tgt w' = detach l (tgt w)
  /\ calls w' = calls w ++ teardown_calls (tgt w) l.
Proof.
  revert w. induction l as [|a l IH]; intros w Hnd Hrun.
  - cbn in Hrun. injection Hrun as <-. cbn. by rewrite app_nil_r.
  - apply NoDup_cons in Hnd as [Hnotin Hnd].
    cbn [shutdown_attrs] in Hrun. unfold bind in Hrun.
    rewrite shutdown_attr_unfold in Hrun.
    rewrite teardown_calls_cons. cbn [detach fold_left].
    destruct (getattr (tgt w) a) as [p|] eqn:Hslot.
    + destruct (fst (invoke p call_shutdown (backend w))); [|discriminate].
      apply IH in Hrun as [Htgt Hcalls]; [|done]. cbn in Htgt, Hcalls.
      split; [done|].
      rewrite Hcalls, teardown_calls_setattr by done.
      by rewrite <- app_assoc.
    + apply IH in Hrun as [Htgt Hcalls]; [|done].
      by rewrite setattr_same.
Qed.

(** A teardown that raises has stopped at the attribute whose protocol
    raised. *)
Lemma shutdown_attrs_raise (l : list Attr) (w w' : World B) (e : Exn) :
  NoDup l ->
  shutdown_attrs l w = (Raise e, w') ->
  exists (pre : list Attr) (a : Attr) (post : list Attr) (p : Protocol),
    l = pre ++ a :: post
    /\ getattr (tgt w) a = Some p
    /\ tgt w' = detach pre (tgt w)
    /\ calls w' = calls w ++ teardown_calls (tgt w) pre ++ [(p, call_shutdown)].
Proof.
  revert w. induction l as [|a l IH]; intros w Hnd Hrun; [discriminate|].
  apply NoDup_cons in Hnd as [Hnotin Hnd].
  cbn [shutdown_attrs] in Hrun. unfold bind in Hrun.
  rewrite shutdown_attr_unfold in Hrun.
  destruct (getattr (tgt w) a) as [p|] eqn:Hslot.
  - destruct (fst (invoke p call_shutdown (backend w))) eqn:Hout.
    + apply IH in Hrun as (pre & x & post & q & -> & Hx & Htgt & Hcalls); [|done].
      cbn in Hx, Htgt, Hcalls.
      assert (a ∉ pre) as Hpre by set_solver.
      assert (a <> x) as Hne by set_solver.
      exists (a :: pre), x, post, q. split; [done|].
      rewrite getattr_setattr, decide_False in Hx by done.
      split; [done|]. split; [done|].
      rewrite Hcalls, teardown_calls_setattr by done.
      rewrite teardown_calls_cons, Hslot.
      by rewrite <- app_assoc.
    + injection Hrun as -> <-.
      exists [], a, l, p. cbn. done.
  - apply IH in Hrun as (pre & x & post & q & -> & Hx & Htgt & Hcalls); [|done].
    exists (a :: pre), x, post, q. split; [done|]. split; [done|].
    cbn [detach fold_left]. rewrite setattr_same by done.
    split; [done|].
    by rewrite teardown_calls_cons, Hslot.
Qed.

(** C7.  A [shutdown()] that ends normally has called [shutdown] once on
    the protocol of every attribute that held one, and has emptied every
    attribute.  From then on every guarded action fails with the
    capability-unavailable error, whatever the state was and whatever it
    becomes, and a second [shutdown()] ends normally and changes
    nothing. *)
Theorem shutdown_releases_everything_once (w w' : World B) :
  shutdown w = (Ok tt, w') ->
  (forall a : Attr, getattr (tgt w') a = None)
  /\ calls w' = calls w ++ teardown_calls (tgt w) all_attrs
  /\ (forall act : Action,
        perform act w' = (Raise (capability_unavailable act), w'))
  /\ (forall (act : Action) (S : TargetStates),
        fst (perform act (snd (update_state S w')))
        = Raise (capability_unavailable act))
  /\ shutdown w' = (Ok tt, w').
Proof.
  intros Hrun. rewrite shutdown_as_list in Hrun.
  apply shutdown_attrs_ok in Hrun as [Htgt Hcalls]; [|apply all_attrs_NoDup].
  assert (forall a : Attr, getattr (tgt w') a = None) as Hempty.
  { intros a. rewrite Htgt, getattr_detach.
    by rewrite decide_True by apply elem_of_all_attrs. }
  split; [done|]. split; [done|].
  split; [|split].
  - intros act. by rewrite perform_unfold, Hempty.
  - intros act S. rewrite perform_unfold, update_state_unfold. cbn [snd tgt].
    replace (getattr _ (spec_required_capability act))
      with (getattr (tgt w') (spec_required_capability act))
      by (by destruct (spec_required_capability act)).
    by rewrite Hempty.
  - rewrite shutdown_as_list. by apply shutdown_attrs_empty.
Qed.

(** C8, as the code has it.  A [shutdown()] that raises has stopped at the
    first attribute whose protocol raised in its own [shutdown]: the
    attributes visited before are empty and their protocols were shut
    down, the attribute of the failing protocol and those after it are as
    they were, and the call to the failing protocol is the last one
    made. *)
Theorem shutdown_stops_at_first_failure (w w' : World B) (e : Exn) :
  shutdown w = (Raise e, w') ->
  exists (pre : list Attr) (a : Attr) (post : list Attr) (p : Protocol),
    all_attrs = pre ++ a :: post
    /\ getattr (tgt w) a = Some p
    /\ (forall x : Attr, x ∈ pre -> getattr (tgt w') x = None)
    /\ (forall x : Attr, x ∈ a :: post -> getattr (tgt w') x = getattr (tgt w) x)
    /\ calls w' = calls w ++ teardown_calls (tgt w) pre ++ [(p, call_shutdown)].
Proof.
  intros Hrun. rewrite shutdown_as_list in Hrun.
  apply shutdown_attrs_raise in Hrun
    as (pre & a & post & p & Hl & Ha & Htgt & Hcalls); [|apply all_attrs_NoDup].
  exists pre, a, post, p. split; [done|]. split; [done|].
  split; [|split; [|done]].
  - intros x Hx. by rewrite Htgt, getattr_detach, decide_True.
  - intros x Hx. rewrite Htgt, getattr_detach, decide_False; [done|].
    pose proof all_attrs_NoDup as Hnd. rewrite Hl in Hnd.
    apply NoDup_app in Hnd as (_ & Hdisj & _). intros Hin. by apply (Hdisj x).
Qed.
End Shutdown.

(** ** [wait] under interleaving *)

Section Wait.
Context {B : Type} `{Backend B}.

Lemma run_app (s1 s2 : list Tick) (c : World B * WaitPc) :
  run (s1 ++ s2) c = run s2 (run s1 c).
Proof. apply fold_left_app. Qed.

Lemma wait_under_snoc (sched : list Tick) (k : Tick) (w : World B) :
  wait_under (sched ++ [k]) w = tick (wait_under sched w) k.
Proof. unfold wait_under. by rewrite run_app. Qed.

(** With its two observations true and nobody else running, the thread
    leaves the loop within three steps. *)
Lemma undisturbed_wait_returns (w : World B) (pc : WaitPc) (n : nat) :
  state (tgt w) = STOPPED ->
  _no_state_update_pending (tgt w) = true ->
  has_returned pc = false ->
  run (repeat Waiter (3 + n)) (w, pc) = (w, returned (tgt w)).
Proof.
  intros Hst Hflag Hpc.
  assert (forall m, run (repeat Waiter m) (w, returned (tgt w))
                    = (w, returned (tgt w))) as Hstay.
  { induction m as [|m IH]; [done|]. cbn. apply IH. }
  assert (waiter_step (tgt w) at_read_state = at_read_flag) as Hread.
  { cbn. by rewrite decide_True. }
  assert (waiter_step (tgt w) at_read_flag = returned (tgt w)) as Hleave.
  { cbn. by rewrite Hflag. }
  change (repeat Waiter (3 + n))
    with ([Waiter; Waiter; Waiter] ++ repeat Waiter n).
  rewrite run_app.
  destruct pc; [| | |discriminate]; cbn [run fold_left tick fst snd];
    change (waiter_step (tgt w) at_event_wait) with at_read_state;
    rewrite ?Hread, ?Hleave; apply Hstay.
Qed.

(** What the position of the thread in [wait] tells about the past: the
    flag is read after a state read that saw STOPPED, with only other
    threads in between, and the loop is left by a flag read that saw the
    flag set. *)
Lemma wait_history (sched : list Tick) (w : World B) :
  match snd (wait_under sched w) with
  | at_read_flag =>
      exists (pre : list Tick) (ops : list Request),
        sched = pre ++ Waiter :: map Other ops
        /\ state (tgt (fst (wait_under pre w))) = STOPPED
  | returned t =>
      exists (pre : list Tick) (ops : list Request) (post : list Tick),
        sched = pre ++ Waiter :: map Other ops ++ Waiter :: post
        /\ state (tgt (fst (wait_under pre w))) = STOPPED
        /\ t = tgt (fst (wait_under (pre ++ Waiter :: map Other ops) w))
        /\ _no_state_update_pending t = true
  | _ => True
  end.
Proof.
  induction sched as [|k sched IH] using rev_ind; [exact I|].
  rewrite wait_under_snoc.
  destruct (wait_under sched w) as [w1 pc] eqn:Hc. cbn [snd] in IH.
  destruct k as [|r]; cbn [tick fst snd].
  - destruct pc as [| | |t]; cbn [waiter_step].
    + exact I.
    + case_decide as Hst; [|exact I].
      exists sched, []. cbn [map]. split; [done|]. by rewrite Hc.
    + destruct (_no_state_update_pending (tgt w1)) eqn:Hflag; [|exact I].
      destruct IH as (pre & ops & -> & Hst).
      exists pre, ops, []. split; [by rewrite <- app_assoc|].
      split; [done|]. by rewrite Hc.
    + destruct IH as (pre & ops & post & -> & Hst & Ht & Hflag).
      exists pre, ops, (post ++ [Waiter]).
      split; [|done]. rewrite <- !app_assoc. cbn. by rewrite <- app_assoc.
  - destruct pc as [| | |t]; try exact I.
    + destruct IH as (pre & ops & -> & Hst).
      exists pre, (ops ++ [r]). split; [|done].
      rewrite map_app, <- app_assoc. cbn. done.
    + destruct IH as (pre & ops & post & -> & Hst & Ht & Hflag).
      exists pre, ops, (post ++ [Other r]).
      split; [|done]. rewrite <- !app_assoc. cbn. by rewrite <- app_assoc.
Qed.

(** C2, as the code has it.  The state and the flag are read one after the
    other, not together.  [wait()] returns only by a read of the flag
    that finds it set, after a read of the state that found STOPPED; when
    no other thread ran between the two reads the state is STOPPED at the
    return.  As long as the state was never STOPPED the caller is still
    inside [wait()].  And a caller still inside [wait()] when
    [update_state(STOPPED)] is applied returns within its next three
    steps if nothing else runs meanwhile. *)
Theorem wait_returns_on_stopped_then_flag (sched : list Tick) (w : World B) :
  (forall t : Target,
     snd (wait_under sched w) = returned t ->
     _no_state_update_pending t = true
     /\ exists (pre : list Tick) (ops : list Request) (post : list Tick),
          sched = pre ++ Waiter :: map Other ops ++ Waiter :: post
          /\ state (tgt (fst (wait_under pre w))) = STOPPED
          /\ t = tgt (fst (wait_under (pre ++ Waiter :: map Other ops) w))
          /\ (ops = [] -> state t = STOPPED))
  /\ ((forall pre : list Tick,
         pre `prefix_of` sched ->
         state (tgt (fst (wait_under pre w))) <> STOPPED) ->
      has_returned (snd (wait_under sched w)) = false)
  /\ (has_returned (snd (wait_under sched w)) = false ->
      let c := run [Other (req_update_state STOPPED); Waiter; Waiter; Waiter]
                   (wait_under sched w) in
      snd c = returned (tgt (fst c))
      /\ state (tgt (fst c)) = STOPPED
      /\ _no_state_update_pending (tgt (fst c)) = true).
Proof.
  pose proof (wait_history sched w) as Hhist.
  split; [|split].
  - intros t Hret. rewrite Hret in Hhist.
    destruct Hhist as (pre & ops & post & -> & Hst & -> & Hflag).
    split; [done|]. exists pre, ops, post.
    split; [done|]. split; [done|]. split; [done|].
    intros ->. cbn [map]. by rewrite wait_under_snoc.
  - intros Hnever.
    destruct (snd (wait_under sched w)) as [| | |t]; try reflexivity.
    destruct Hhist as (pre & ops & post & -> & Hst & _).
    exfalso. apply (Hnever pre); [|done]. by eexists.
  - intros Hpc. cbv zeta.
    destruct (wait_under sched w) as [w1 pc]. cbn [snd] in Hpc.
    change (run [Other (req_update_state STOPPED); Waiter; Waiter; Waiter] (w1, pc))
      with (run (repeat Waiter (3 + 0)) (snd (update_state STOPPED w1), pc)).
    rewrite undisturbed_wait_returns by done. done.
Qed.

(** C10.  [update_state(S)] ends normally for every [S], whatever the
    state was, with the state [S] and the flag set.  So a [wait()] that
    starts after an [update_state(STOPPED)] returns, whether the flag was
    cleared before that update or not. *)
Theorem update_state_always_accepted (S : TargetStates) (w : World B) (n : nat) :
  (fst (update_state S w) = Ok tt
   /\ state (tgt (snd (update_state S w))) = S
   /\ _no_state_update_pending (tgt (snd (update_state S w))) = true)
  /\ let w1 := snd (update_state STOPPED w) in
     wait_under (repeat Waiter (3 + n)) w1 = (w1, returned (tgt w1)).
Proof.
  split; [by rewrite update_state_unfold|].
  cbv zeta. unfold wait_under. by rewrite undisturbed_wait_returns.
Qed.
End Wait.

(** ** The model at work *)

Section QuietRuns.
#[local] Existing Instance quiet_backend.

(** The scenario of the specification: with execution and memory attached
    and the state still CREATED, [read_memory] is refused; once the state
    is STOPPED it is forwarded to the memory protocol. *)
Example read_memory_scenario :
  let w := world_of attached in
  let args := call_read_memory (PInt 0x1000) (PInt 4) (PInt 1) (PBool false) in
  read_memory (PInt 0x1000) (PInt 4) (PInt 1) (PBool false) w
  = (Raise (Exception "read_memory() requested but Target is CREATED"), w)
  /\ read_memory (PInt 0x1000) (PInt 4) (PInt 1) (PBool false)
       (snd (update_state STOPPED w))
     = (Ok PNone,
        mkWorld (tgt (snd (update_state STOPPED w))) tt [(2, args)]).
Proof. split; reflexivity. Qed.

Example step_while_running :
  fst (step (world_of (set_state attached RUNNING)))
  = Raise (Exception "step() requested but Target is RUNNING").
Proof. reflexivity. Qed.

Example cont_on_fresh_target :
  fst (cont (world_of fresh))
  = Raise (Exception "cont() requested but _exec_protocol is undefined.").
Proof. reflexivity. Qed.

Lemma guard_checks_in_order_witness :
  perform do_cont (world_of fresh)
  = (Raise (capability_unavailable do_cont), world_of fresh)
  /\ perform do_cont (world_of attached)
     = (Raise (wrong_state do_cont CREATED), world_of attached)
  /\ perform do_cont (world_of (set_state attached STOPPED))
     = call 1 call_cont (before_call do_cont (world_of (set_state attached STOPPED))).
Proof.
  split; [|split].
  - apply (proj1 (guard_checks_in_order do_cont (world_of fresh))).
    reflexivity.
  - apply (proj1 (proj2 (guard_checks_in_order do_cont (world_of attached))) 1).
    + reflexivity.
    + discriminate.
  - apply (proj2 (proj2 (guard_checks_in_order do_cont
                           (world_of (set_state attached STOPPED)))) 1).
    + reflexivity.
    + reflexivity.
Defined.

Lemma failed_precondition_changes_nothing_witness :
  state (tgt (world_of (set_state attached RUNNING))) <> spec_required_state do_step
  /\ exists e : Exn,
       perform do_step (world_of (set_state attached RUNNING))
       = (Raise e, world_of (set_state attached RUNNING))
       /\ (e = capability_unavailable do_step
           \/ e = wrong_state do_step
                    (state (tgt (world_of (set_state attached RUNNING))))).
Proof.
  split; [discriminate|].
  apply (failed_precondition_changes_nothing do_step
           (world_of (set_state attached RUNNING))).
  right. discriminate.
Defined.

(** C6 fails as stated: [stop()] on a target in state CREATED raises
    "stop() requested but Target is CREATED", which does not name RUNNING,
    the state [stop] requires. *)
Lemma wrong_state_error_omits_required_state :
  ~ (forall (a : Action) (w : World unit) (p : Protocol),
       getattr (tgt w) (spec_required_capability a) = Some p ->
       state (tgt w) <> spec_required_state a ->
       exists msg : string,
         fst (perform a w) = Raise (Exception msg)
         /\ contains (TargetStates_name (spec_required_state a)) msg = true
         /\ contains (TargetStates_name (state (tgt w))) msg = true
         /\ contains (action_name a) msg = true).
Proof.
  intros Hclaim.
  destruct (Hclaim do_stop (world_of attached) 1 eq_refl)
    as (msg & Hmsg & Hrequired & _); [discriminate|].
  vm_compute in Hmsg. injection Hmsg as <-.
  vm_compute in Hrequired. discriminate.
Qed.

Lemma wrong_state_error_names_action_and_actual_witness :
  exists msg : string,
    perform do_stop (world_of attached) = (Raise (Exception msg), world_of attached)
    /\ msg = "stop() requested but Target is CREATED"
    /\ contains "stop" msg = true
    /\ contains "CREATED" msg = true
    /\ contains "RUNNING" msg = false.
Proof.
  apply (wrong_state_error_names_action_and_actual do_stop (world_of attached) 1).
  - reflexivity.
  - discriminate.
Defined.

Lemma run_control_clears_then_forwards_witness :
  cont (world_of (set_state attached STOPPED))
  = (Ok PNone,
     mkWorld (set_flag (set_state attached STOPPED) false) tt [(1, call_cont)])
  /\ stop (world_of (set_state attached RUNNING))
     = (Ok PNone,
        mkWorld (set_flag (set_state attached RUNNING) false) tt [(1, call_stop)])
  /\ step (world_of (set_state attached STOPPED))
     = (Ok PNone,
        mkWorld (set_flag (set_state attached STOPPED) false) tt [(1, call_step)]).
Proof.
  split; [|split].
  - exact (proj1 (run_control_clears_then_forwards
                    (world_of (set_state attached STOPPED)) 1 eq_refl) eq_refl).
  - exact (proj1 (proj2 (run_control_clears_then_forwards
                           (world_of (set_state attached RUNNING)) 1 eq_refl))
                 eq_refl).
  - exact (proj2 (proj2 (run_control_clears_then_forwards
                           (world_of (set_state attached STOPPED)) 1 eq_refl))
                 eq_refl).
Defined.

(** C9 fails as stated: on a fresh target, whose status dictionary is
    empty, [get_status()] leaves the dictionary with the key [state]. *)
Lemma get_status_changes_status :
  ~ (forall w : World unit, snd (get_status w) = w).
Proof.
  intros Hclaim. specialize (Hclaim (world_of fresh)).
  apply (f_equal (fun w => status (tgt w) !! "state")) in Hclaim.
  vm_compute in Hclaim. discriminate.
Qed.

Lemma shutdown_releases_everything_once_witness :
  shutdown (world_of attached) = (Ok tt, snd (shutdown (world_of attached)))
  /\ calls (snd (shutdown (world_of attached)))
     = [(1, call_shutdown); (2, call_shutdown)]
  /\ shutdown (snd (shutdown (world_of attached)))
     = (Ok tt, snd (shutdown (world_of attached))).
Proof.
  assert (shutdown (world_of attached)
          = (Ok tt, snd (shutdown (world_of attached)))) as Hrun
    by (vm_compute; reflexivity).
  split; [exact Hrun|].
  destruct (shutdown_releases_everything_once
              (world_of attached) (snd (shutdown (world_of attached))) Hrun)
    as (_ & Hcalls & _ & _ & Hagain).
  split; [exact Hcalls | exact Hagain].
Defined.

(** C2 fails as stated.  After a [cont()] the flag is cleared and the
    state still STOPPED.  The thread in [wait] reads the state; the backend
    reports RUNNING, which sets the flag; the thread reads the flag and
    returns, with the target RUNNING. *)
Lemma wait_returns_while_running :
  ~ (forall (sched : list Tick) (w : World unit) (t : Target),
       snd (wait_under sched w) = returned t ->
       state t = STOPPED /\ _no_state_update_pending t = true).
Proof.
  intros Hclaim.
  assert (snd (wait_under racing_schedule after_cont)
          = returned (tgt (snd (update_state RUNNING after_cont)))) as Hret
    by (vm_compute; reflexivity).
  destruct (Hclaim racing_schedule after_cont _ Hret) as [Hstate _].
  vm_compute in Hstate. discriminate.
Qed.

Example racing_schedule_run :
  state (tgt after_cont) = STOPPED
  /\ _no_state_update_pending (tgt after_cont) = false
  /\ snd (wait_under racing_schedule after_cont)
     = returned (tgt (snd (update_state RUNNING after_cont)))
  /\ state (tgt (snd (update_state RUNNING after_cont))) = RUNNING.
Proof. repeat split. Qed.

Lemma wait_returns_on_stopped_then_flag_witness :
  let w := snd (update_state STOPPED (world_of attached)) in
  (_no_state_update_pending (tgt w) = true
   /\ exists (pre : list Tick) (ops : list Request) (post : list Tick),
        [Waiter; Waiter; Waiter] = pre ++ Waiter :: map Other ops ++ Waiter :: post
        /\ state (tgt (fst (wait_under pre w))) = STOPPED
        /\ tgt w = tgt (fst (wait_under (pre ++ Waiter :: map Other ops) w))
        /\ (ops = [] -> state (tgt w) = STOPPED))
  /\ has_returned (snd (wait_under [Waiter] (world_of attached))) = false
  /\ snd (run [Other (req_update_state STOPPED); Waiter; Waiter; Waiter]
              (wait_under [Waiter] (world_of attached)))
     = returned (tgt w).
Proof.
  cbv zeta. split; [|split].
  - apply (proj1 (wait_returns_on_stopped_then_flag
                    [Waiter; Waiter; Waiter]
                    (snd (update_state STOPPED (world_of attached))))).
    reflexivity.
  - apply (proj1 (proj2 (wait_returns_on_stopped_then_flag
                           [Waiter] (world_of attached)))).
    intros pre [rest Hpre].
    destruct pre as [|k [|k' pre]].
    + discriminate.
    + injection Hpre as <- _. discriminate.
    + destruct rest; discriminate.
  - apply (proj2 (proj2 (wait_returns_on_stopped_then_flag
                           [Waiter] (world_of attached)))).
    reflexivity.
Defined.
End QuietRuns.

Section FailingRuns.
#[local] Existing Instance failing_backend.

Example flaky_shutdown :
  shutdown (world_of flaky)
  = (Raise (mkExn "RuntimeError" "connection lost"),
     mkWorld (setattr flaky exec_attr None) tt
             [(2, call_shutdown); (1, call_shutdown)]).
Proof. reflexivity. Qed.

(** C8 fails as stated: when the [shutdown] of the memory protocol raises,
    the register protocol, attached as well, is never shut down. *)
Lemma shutdown_abandons_later_protocols :
  ~ (forall (w : World unit) (a : Attr) (p : Protocol),
       getattr (tgt w) a = Some p ->
       In (p, call_shutdown)
          (drop (length (calls w)) (calls (snd (shutdown w))))).
Proof.
  intros Hclaim.
  specialize (Hclaim (world_of flaky) register_attr 3 eq_refl).
  vm_compute in Hclaim.
  destruct Hclaim as [Hc|[Hc|[]]]; discriminate.
Qed.

Lemma shutdown_stops_at_first_failure_witness :
  shutdown (world_of flaky)
  = (Raise (mkExn "RuntimeError" "connection lost"), snd (shutdown (world_of flaky)))
  /\ exists (pre : list Attr) (a : Attr) (post : list Attr) (p : Protocol),
       all_attrs = pre ++ a :: post
       /\ getattr flaky a = Some p
       /\ (forall x : Attr,
             x ∈ pre -> getattr (tgt (snd (shutdown (world_of flaky)))) x = None)
       /\ (forall x : Attr,
             x ∈ a :: post ->
             getattr (tgt (snd (shutdown (world_of flaky)))) x = getattr flaky x)
       /\ calls (snd (shutdown (world_of flaky)))
          = [] ++ teardown_calls flaky pre ++ [(p, call_shutdown)].
Proof.
  assert (shutdown (world_of flaky)
          = (Raise (mkExn "RuntimeError" "connection lost"),
             snd (shutdown (world_of flaky)))) as Hrun
    by (vm_compute; reflexivity).
  split; [exact Hrun|].
  exact (shutdown_stops_at_first_failure
           (world_of flaky) (snd (shutdown (world_of flaky)))
           (mkExn "RuntimeError" "connection lost") Hrun).
Defined.
End FailingRuns.

(** * Further properties of the code *)

(** ** What each request leaves of the target *)

Lemma detach_frame (l : list Attr) (self : Target) :
  state (detach l self) = state self
  /\ _no_state_update_pending (detach l self) = _no_state_update_pending self
  /\ status (detach l self) = status self
  /\ log (detach l self) = log self.
Proof.
  revert self. induction l as [|a l IH]; intros self; [done|].
  change (detach (a :: l) self) with (detach l (setattr self a None)).
  destruct (IH (setattr self a None)) as (-> & -> & -> & ->).
  done.
Qed.

Section Frames.
Context {B : Type} `{Backend B}.

(** A guarded action leaves the target as it was, or with the flag
    cleared when it is one of [cont], [stop] and [step]. *)
Lemma perform_target (a : Action) (w : World B) :
  tgt (snd (perform a w)) = tgt w
  \/ (spec_clears_flag a = true
      /\ tgt (snd (perform a w)) = set_flag (tgt w) false).
Proof.
  rewrite perform_unfold.
  destruct (getattr (tgt w) (spec_required_capability a)) as [p|]; [|by left].
  case_decide; [|by left].
  rewrite call_unfold. unfold before_call.
  destruct (spec_clears_flag a); [by right | by left].
Qed.

(** [shutdown] only empties attributes. *)
Lemma shutdown_target (w : World B) :
  exists l : list Attr, tgt (snd (shutdown w)) = detach l (tgt w).
Proof.
  destruct (shutdown w) as [[[]|e] w'] eqn:Hrun; rewrite shutdown_as_list in Hrun.
  - apply shutdown_attrs_ok in Hrun as [Htgt _]; [|apply all_attrs_NoDup]. eauto.
  - apply shutdown_attrs_raise in Hrun as (pre & _ & _ & _ & _ & _ & Htgt & _);
      [|apply all_attrs_NoDup]. eauto.
Qed.

Lemma serve_state (r : Request) (w : World B) :
  state (tgt (serve r w))
  = match r with
    | req_update_state s => s
    | _ => state (tgt w)
    end.
Proof.
  destruct r as [| |a|s|]; cbn [serve]; try reflexivity.
  - destruct (shutdown_target w) as [l ->]. apply detach_frame.
  - by destruct (perform_target a w) as [->|[_ ->]].
Qed.

Lemma serve_flag_stays_cleared (r : Request) (w : World B) :
  is_update_state r = false ->
  _no_state_update_pending (tgt w) = false ->
  _no_state_update_pending (tgt (serve r w)) = false.
Proof.
  intros Hr Hflag. destruct r as [| |a|s|]; cbn [serve]; try done.
  - destruct (shutdown_target w) as [l ->].
    by destruct (detach_frame l (tgt w)) as (_ & -> & _).
  - by destruct (perform_target a w) as [->|[_ ->]].
Qed.

Lemma serve_flag_stays_set (r : Request) (w : World B) :
  is_run_control r = false ->
  _no_state_update_pending (tgt w) = true ->
  _no_state_update_pending (tgt (serve r w)) = true.
Proof.
  intros Hr Hflag. destruct r as [| |a|s|]; cbn [serve]; try done.
  - destruct (shutdown_target w) as [l ->].
    by destruct (detach_frame l (tgt w)) as (_ & -> & _).
  - destruct (perform_target a w) as [->|[Hclear _]]; [done|].
    by destruct a.
Qed.

Lemma serve_getattr (r : Request) (w : World B) (a : Attr) :
  getattr (tgt (serve r w)) a = getattr (tgt w) a
  \/ (r = req_shutdown /\ getattr (tgt (serve r w)) a = None).
Proof.
  destruct r as [| |act|s|]; cbn [serve]; try (by left).
  - destruct (shutdown_target w) as [l ->]. rewrite getattr_detach.
    case_decide; [by right | by left].
  - left. destruct (perform_target act w) as [->|[_ ->]]; [done|]. by destruct a.
Qed.

(** X1.  Past their guard, the memory, register, breakpoint and watchpoint
    actions make their request, with the arguments they were given, to the
    protocol of their attribute and end as it ends, with its value or its
    exception.  They leave the target as it was, the flag included. *)
Theorem data_actions_forward_untouched (a : Action) (w : World B) (p : Protocol) :
  spec_clears_flag a = false ->
  getattr (tgt w) (spec_required_capability a) = Some p ->
  state (tgt w) = STOPPED ->
  perform a w
  = (outcome_result (fst (invoke p (spec_forwarded a) (backend w))),
     mkWorld (tgt w)
             (snd (invoke p (spec_forwarded a) (backend w)))
             (calls w ++ [(p, spec_forwarded a)])).
Proof.
  intros Hkind Hslot Hst. rewrite perform_unfold, Hslot.
  rewrite decide_True by (by destruct a).
  rewrite call_unfold. unfold before_call, after_call. by rewrite Hkind.
Qed.

(** X2.  A target just created, whatever its name and its avatar, is in
    state CREATED with the flag unset and an empty status, and it refuses
    every guarded action with the capability-unavailable error: the class
    attaches no protocol by itself. *)
Theorem created_target_refuses_every_action
    (name_ : string) (avatar_ : Avatar) (b : B) (cs : list (Protocol * Call))
    (a : Action) :
  state (__init__ name_ avatar_) = CREATED
  /\ _no_state_update_pending (__init__ name_ avatar_) = false
  /\ status (__init__ name_ avatar_) = ∅
  /\ perform a (mkWorld (__init__ name_ avatar_) b cs)
     = (Raise (capability_unavailable a), mkWorld (__init__ name_ avatar_) b cs).
Proof.
  repeat split. rewrite perform_unfold. by destruct a.
Qed.

(** X3.  Only [update_state] writes the state: every other request, served
    or refused, ending normally or not, leaves the state as it was. *)
Theorem state_written_only_by_update_state (r : Request) (w : World B) :
  is_update_state r = false ->
  state (tgt (serve r w)) = state (tgt w).
Proof. intros Hr. rewrite serve_state. by destruct r. Qed.

(** X4.  Only [update_state] sets the flag: a cleared flag is still cleared
    after any other request. *)
Theorem flag_set_only_by_update_state (r : Request) (w : World B) :
  is_update_state r = false ->
  _no_state_update_pending (tgt w) = false ->
  _no_state_update_pending (tgt (serve r w)) = false.
Proof. apply serve_flag_stays_cleared. Qed.

(** X5.  Only [cont], [stop] and [step] clear the flag: a set flag is still
    set after any other request, [shutdown] and [get_status] included. *)
Theorem flag_cleared_only_by_run_control (r : Request) (w : World B) :
  is_run_control r = false ->
  _no_state_update_pending (tgt w) = true ->
  _no_state_update_pending (tgt (serve r w)) = true.
Proof. apply serve_flag_stays_set. Qed.

Lemma empty_attribute_stays_empty (reqs : list Request) (w : World B) (a : Attr) :
  getattr (tgt w) a = None ->
  getattr (tgt (serve_all reqs w)) a = None.
Proof.
  revert w. induction reqs as [|r reqs IH]; intros w Hnone; [done|].
  change (serve_all (r :: reqs) w) with (serve_all reqs (serve r w)).
  apply IH. destruct (serve_getattr r w a) as [->|[_ ->]]; done.
Qed.

(** X6.  No method attaches a protocol.  A request other than [shutdown]
    leaves every protocol attribute as it was, and an attribute that is
    empty is still empty after any sequence of requests. *)
Theorem attributes_never_attached (reqs : list Request) (w : World B) (a : Attr) :
  (forallb (fun r => negb (is_shutdown r)) reqs = true ->
   getattr (tgt (serve_all reqs w)) a = getattr (tgt w) a)
  /\ (getattr (tgt w) a = None ->
      getattr (tgt (serve_all reqs w)) a = None).
Proof.
  split; [|apply empty_attribute_stays_empty].
  revert w. induction reqs as [|r reqs IH]; intros w Hall; [done|].
  change (serve_all (r :: reqs) w) with (serve_all reqs (serve r w)).
  cbn [forallb] in Hall. apply andb_true_iff in Hall as [Hr Hall].
  rewrite IH by done.
  destruct (serve_getattr r w a) as [->|[-> _]]; [done|discriminate].
Qed.

(** X7.  No method writes a key of the status dictionary other than
    [state]: what the caller stored under another key is still there after
    any sequence of requests. *)
Theorem other_status_keys_are_kept
    (reqs : list Request) (w : World B) (k : string) :
  k <> "state" ->
  status (tgt (serve_all reqs w)) !! k = status (tgt w) !! k.
Proof.
  intros Hk. revert w. induction reqs as [|r reqs IH]; intros w; [done|].
  change (serve_all (r :: reqs) w) with (serve_all reqs (serve r w)). rewrite IH.
  destruct r as [| |act|s|]; cbn [serve]; try done.
  - destruct (shutdown_target w) as [l ->].
    by destruct (detach_frame l (tgt w)) as (_ & _ & -> & _).
  - by destruct (perform_target act w) as [->|[_ ->]].
  - rewrite get_status_unfold. cbn. by rewrite lookup_insert_ne.
Qed.

End Frames.

(** ** Shutdown, further *)

Lemma calls_to_teardown (p : Protocol) (self : Target) (l : list Attr) :
  length (calls_to p (teardown_calls self l))
  = length (filter (fun a => getattr self a = Some p) l).
Proof.
  induction l as [|a l IH]; [done|].
  rewrite teardown_calls_cons, filter_cons. unfold calls_to in *.
  destruct (getattr self a) as [q|] eqn:Hslot.
  - rewrite filter_cons. cbn [fst].
    destruct (decide (q = p)) as [->|Hne].
    + rewrite decide_True by done. cbn. by rewrite IH.
    + rewrite decide_False by congruence. done.
  - rewrite decide_False by done. done.
Qed.

Section ShutdownFurther.
Context {B : Type} `{Backend B}.

(** Attributes that are empty are passed over. *)
Lemma shutdown_attrs_skip (pre l : list Attr) (w : World B) :
  (forall x : Attr, x ∈ pre -> getattr (tgt w) x = None) ->
  shutdown_attrs (pre ++ l) w = shutdown_attrs l w.
Proof.
  induction pre as [|a pre IH]; intros Hempty; [done|].
  cbn [app shutdown_attrs]. unfold bind.
  rewrite shutdown_attr_unfold, Hempty by left.
  apply IH. intros x Hx. apply Hempty. by right.
Qed.

(** A teardown only adds to the record of the calls. *)
Lemma shutdown_attrs_extends (l : list Attr) (w : World B) :
  exists more : list (Protocol * Call),
    calls (snd (shutdown_attrs l w)) = calls w ++ more.
Proof.
  revert w. induction l as [|a l IH]; intros w.
  - exists []. cbn. by rewrite app_nil_r.
  - cbn [shutdown_attrs]. unfold bind. rewrite shutdown_attr_unfold.
    destruct (getattr (tgt w) a) as [p|]; [|apply IH].
    destruct (fst (invoke p call_shutdown (backend w))).
    + match goal with
      | |- context [shutdown_attrs l ?w1] => destruct (IH w1) as [more Hmore]
      end.
      rewrite Hmore. cbn [calls]. rewrite <- app_assoc. eauto.
    + cbn. eauto.
Qed.

(** X9.  After a [shutdown()] that returned the target stays unusable:
    whatever is requested next, state updates included, every guarded action
    fails with the capability-unavailable error. *)
Theorem shutdown_is_final
    (w w' : World B) (reqs : list Request) (act : Action) :
  shutdown w = (Ok tt, w') ->
  perform act (serve_all reqs w')
  = (Raise (capability_unavailable act), serve_all reqs w').
Proof.
  intros Hrun. rewrite shutdown_as_list in Hrun.
  apply shutdown_attrs_ok in Hrun as [Htgt _]; [|apply all_attrs_NoDup].
  rewrite perform_unfold.
  assert (getattr (tgt (serve_all reqs w')) (spec_required_capability act) = None)
    as ->; [|done].
  apply empty_attribute_stays_empty.
  rewrite Htgt, getattr_detach. by rewrite decide_True by apply elem_of_all_attrs.
Qed.

(** X10.  [shutdown()] calls [shutdown] once for every attribute that holds
    a protocol, not once for every protocol: an object attached under
    several attributes is shut down as many times as it is attached. *)
Theorem shared_protocol_shut_down_per_attribute
    (w w' : World B) (p : Protocol) :
  shutdown w = (Ok tt, w') ->
  length (calls_to p (drop (length (calls w)) (calls w')))
  = length (holders p (tgt w)).
Proof.
  intros Hrun. rewrite shutdown_as_list in Hrun.
  apply shutdown_attrs_ok in Hrun as [_ ->]; [|apply all_attrs_NoDup].
  rewrite drop_app_length. apply calls_to_teardown.
Qed.

(** X11.  A [shutdown()] that raised can be called again: the second call
    passes over the attributes the first one emptied and starts with the
    [shutdown] of the protocol that had raised, which is thus called a
    second time. *)
Theorem shutdown_retry_resumes_at_failure (w w' : World B) (e : Exn) :
  shutdown w = (Raise e, w') ->
  exists (p : Protocol) (more : list (Protocol * Call)),
    last (calls w') = Some (p, call_shutdown)
    /\ calls (snd (shutdown w')) = calls w' ++ (p, call_shutdown) :: more.
Proof.
  intros Hrun. rewrite shutdown_as_list in Hrun.
  pose proof all_attrs_NoDup as Hnd.
  apply shutdown_attrs_raise in Hrun
    as (pre & a & post & p & Hl & Ha & Htgt & Hcalls); [|done].
  rewrite Hl in Hnd. apply NoDup_app in Hnd as (_ & Hdisj & _).
  assert (a ∉ pre) as Hapre by (intros Hin; apply (Hdisj a Hin); left).
  assert (forall x : Attr, x ∈ pre -> getattr (tgt w') x = None) as Hempty.
  { intros x Hx. by rewrite Htgt, getattr_detach, decide_True. }
  assert (getattr (tgt w') a = Some p) as Ha'.
  { by rewrite Htgt, getattr_detach, decide_False. }
  exists p.
  rewrite shutdown_as_list, Hl, shutdown_attrs_skip by done.
  cbn [shutdown_attrs]. unfold bind. rewrite shutdown_attr_unfold, Ha'.
  destruct (fst (invoke p call_shutdown (backend w'))).
  - match goal with
    | |- context [shutdown_attrs post ?w1] =>
        destruct (shutdown_attrs_extends post w1) as [more Hmore]
    end.
    exists more. split.
    + by rewrite Hcalls, !app_assoc, last_snoc.
    + rewrite Hmore. cbn [calls]. by rewrite <- app_assoc.
  - exists []. split.
    + by rewrite Hcalls, !app_assoc, last_snoc.
    + done.
Qed.
End ShutdownFurther.

(** ** [wait], further *)

Section WaitFurther.
Context {B : Type} `{Backend B}.

(** X12.  [wait()] called on a target that is not STOPPED cannot return
    unless some thread calls [update_state(STOPPED)]: no other request,
    and no report of another state, EXITED included, lets the caller go. *)
Theorem wait_needs_a_stopped_report (sched : list Tick) (w : World B) :
  state (tgt w) <> STOPPED ->
  forallb (fun k => negb (reports_stopped k)) sched = true ->
  has_returned (snd (wait_under sched w)) = false.
Proof.
  intros Hstart Hsched.
  assert (state (tgt (fst (wait_under sched w))) <> STOPPED
          /\ (snd (wait_under sched w) = at_event_wait
              \/ snd (wait_under sched w) = at_read_state)) as [_ [-> | ->]];
    [|done|done].
  induction sched as [|k sched IH] using rev_ind; [by split; [|left]|].
  rewrite forallb_app in Hsched. apply andb_true_iff in Hsched as [Hsched Hk].
  destruct (IH Hsched) as [Hst Hpc]. rewrite wait_under_snoc.
  destruct (wait_under sched w) as [w1 pc]. cbn [fst snd] in Hst, Hpc.
  destruct k as [|r]; cbn [tick fst snd].
  - split; [done|].
    destruct Hpc as [-> | ->]; cbn [waiter_step]; [by right|].
    rewrite decide_False by done. by left.
  - split; [|done]. rewrite serve_state.
    destruct r as [| | |s|]; try done. by destruct s.
Qed.

(** X13.  [wait()] called while the flag is cleared, as it is after a
    [cont()], a [stop()] or a [step()], cannot return before some thread
    calls [update_state]: the STOPPED state seen before the action does not
    count. *)
Theorem wait_after_clear_needs_a_report (sched : list Tick) (w : World B) :
  _no_state_update_pending (tgt w) = false ->
  forallb (fun k => negb (reports k)) sched = true ->
  has_returned (snd (wait_under sched w)) = false.
Proof.
  intros Hstart Hsched.
  assert (_no_state_update_pending (tgt (fst (wait_under sched w))) = false
          /\ has_returned (snd (wait_under sched w)) = false) as [_ ->]; [|done].
  induction sched as [|k sched IH] using rev_ind; [done|].
  rewrite forallb_app in Hsched. apply andb_true_iff in Hsched as [Hsched Hk].
  destruct (IH Hsched) as [Hflag Hpc]. rewrite wait_under_snoc.
  destruct (wait_under sched w) as [w1 pc]. cbn [fst snd] in Hflag, Hpc.
  destruct k as [|r]; cbn [tick fst snd].
  - split; [done|].
    destruct pc; cbn [waiter_step]; try done.
    + by case_decide.
    + by rewrite Hflag.
  - split; [|done]. apply serve_flag_stays_cleared; [|done]. by destruct r.
Qed.

(** X14.  The facade does not move the state by itself.  After a [cont()]
    that passed its guard the target is still STOPPED, so a [stop()] is
    refused with the wrong-state error until the backend has reported
    RUNNING; after that report it is forwarded. *)
Theorem stop_after_cont_waits_for_the_report (w : World B) (p : Protocol) :
  _exec_protocol (tgt w) = Some p ->
  state (tgt w) = STOPPED ->
  let w1 := snd (cont w) in
  stop w1 = (Raise (wrong_state do_stop STOPPED), w1)
  /\ fst (stop (snd (update_state RUNNING w1)))
     = outcome_result (fst (invoke p call_stop (backend w1))).
Proof.
  intros Hslot Hst. cbv zeta.
  assert (tgt (snd (cont w)) = set_flag (tgt w) false) as Hw1.
  { change (cont w) with (perform do_cont w). rewrite perform_unfold.
    cbn [spec_required_capability spec_required_state getattr].
    by rewrite Hslot, decide_True, call_unfold by done. }
  set (w1 := snd (cont w)) in *.
  split.
  - change (stop w1) with (perform do_stop w1). rewrite perform_unfold.
    cbn [spec_required_capability spec_required_state getattr].
    rewrite Hw1. cbn [_exec_protocol set_flag state].
    by rewrite Hslot, Hst, decide_False.
  - change (stop ?x) with (perform do_stop x).
    rewrite perform_unfold, update_state_unfold.
    cbn [snd tgt spec_required_capability spec_required_state getattr].
    rewrite Hw1. cbn [_exec_protocol set_flag set_state log_info state].
    by rewrite Hslot, decide_True, call_unfold by done.
Qed.
End WaitFurther.

(** ** The enumeration and the messages *)

(** X15.  The values of [TargetStates] are distinct single bits: the
    bitwise and of the values of two members is the value itself when the
    members are the same and 0 otherwise, so a set of states can be kept as
    a mask of their values. *)
Theorem TargetStates_values_are_distinct_bits (s s' : TargetStates) :
  Z.land (TargetStates_value s) (TargetStates_value s')
  = (if decide (s = s') then TargetStates_value s else 0)%Z
  /\ exists k : Z, (0 <= k < 6)%Z /\ TargetStates_value s = (2 ^ k)%Z.
Proof.
  split.
  - by destruct s, s'.
  - destruct s;
      [exists 0%Z | exists 1%Z | exists 2%Z | exists 3%Z | exists 4%Z | exists 5%Z];
      by split; [lia|].
Qed.

(** X16.  Both precondition errors are plain exceptions told apart by their
    message only, and the messages never coincide: the error of an empty
    attribute is never the error of a wrong state, and the wrong-state
    errors of two calls are the same only for the same method name and the
    same actual state. *)
Theorem precondition_errors_are_told_apart (a a' : Action) (s s' : TargetStates) :
  capability_unavailable a <> wrong_state a' s
  /\ (wrong_state a s = wrong_state a' s' ->
      action_name a = action_name a' /\ s = s').
Proof.
  split.
  - destruct a, a', s; vm_compute; discriminate.
  - destruct a, a', s, s'; vm_compute; first [discriminate | by intros _].
Qed.

(** ** The guard and the state updates together *)

Section Together.
Context {B : Type} `{Backend B}.

Lemma run_returned (sched : list Tick) (w : World B) (t : Target) :
  snd (run sched (w, returned t)) = returned t.
Proof.
  revert w. induction sched as [|k sched IH]; intros w; [done|].
  destruct k; apply IH.
Qed.

Lemma quiet_wait_progress (sched : list Tick) (w : World B) (pc : WaitPc) :
  state (tgt w) = STOPPED ->
  _no_state_update_pending (tgt w) = true ->
  forallb leaves_wait_alone sched = true ->
  steps_to_return pc <= waiter_ticks sched ->
  has_returned (snd (run sched (w, pc))) = true.
Proof.
  revert w pc. induction sched as [|k sched IH]; intros w pc Hst Hflag Hquiet Hn.
  - cbn in Hn. destruct pc; cbn in Hn; try lia. done.
  - cbn [forallb] in Hquiet. apply andb_true_iff in Hquiet as [Hk Hquiet].
    change (run (k :: sched) (w, pc)) with (run sched (tick (w, pc) k)).
    destruct k as [|r]; cbn [tick fst snd].
    + unfold waiter_ticks in Hn. cbn [List.filter length] in Hn.
      fold (waiter_ticks sched) in Hn.
      destruct pc as [| | |t]; cbn [waiter_step steps_to_return] in *.
      * apply IH; try done. cbn. lia.
      * rewrite decide_True by done. apply IH; try done. cbn. lia.
      * rewrite Hflag. by rewrite run_returned.
      * by rewrite run_returned.
    + cbn [leaves_wait_alone] in Hk. apply andb_true_iff in Hk as [Hu Hc].
      apply negb_true_iff in Hu, Hc.
      apply IH; try done.
      * rewrite serve_state. destruct r; try done.
      * by apply serve_flag_stays_set.
Qed.

(** X17.  Requests that neither report a state nor run [cont], [stop] or
    [step] do not disturb [wait()]: called on a STOPPED target with the flag
    set, it has returned once its thread has taken three steps, whatever
    the other threads read, write to memory or shut down meanwhile. *)
Theorem wait_not_disturbed_by_other_requests (sched : list Tick) (w : World B) :
  state (tgt w) = STOPPED ->
  _no_state_update_pending (tgt w) = true ->
  forallb leaves_wait_alone sched = true ->
  3 <= waiter_ticks sched ->
  has_returned (snd (wait_under sched w)) = true.
Proof. intros. by apply quiet_wait_progress. Qed.

(** X18.  A state update opens exactly the actions that require the new
    state: right after [update_state(S)], an action whose protocol is
    attached is forwarded when it requires [S] and is refused with the
    wrong-state error naming [S] otherwise, whatever the state was
    before. *)
Theorem update_state_opens_the_guard
    (S : TargetStates) (a : Action) (w : World B) (p : Protocol) :
  getattr (tgt w) (spec_required_capability a) = Some p ->
  fst (perform a (snd (update_state S w)))
  = if decide (S = spec_required_state a)
    then outcome_result (fst (invoke p (spec_forwarded a) (backend w)))
    else Raise (wrong_state a S).
Proof.
  intros Hslot. rewrite perform_unfold, update_state_unfold. cbn [snd tgt].
  replace (getattr _ (spec_required_capability a)) with (Some p)
    by (rewrite <- Hslot; by destruct (spec_required_capability a)).
  cbn [state set_flag set_state].
  case_decide; [|done].
  rewrite call_unfold. cbn [fst]. unfold before_call.
  by destruct (spec_clears_flag a).
Qed.
End Together.

(** ** The further properties at work *)

Section FurtherQuietRuns.
#[local] Existing Instance quiet_backend.

Lemma data_actions_forward_untouched_witness :
  perform read_word (world_of stopped)
  = (outcome_result
       (fst (invoke 2 (spec_forwarded read_word) (backend (world_of stopped)))),
     mkWorld (tgt (world_of stopped))
             (snd (invoke 2 (spec_forwarded read_word) (backend (world_of stopped))))
             (calls (world_of stopped) ++ [(2, spec_forwarded read_word)])).
Proof.
  apply (data_actions_forward_untouched read_word (world_of stopped) 2);
    reflexivity.
Defined.

Lemma state_written_only_by_update_state_witness :
  state (tgt (serve (req_action do_cont) (world_of stopped)))
  = state (tgt (world_of stopped)).
Proof.
  apply (state_written_only_by_update_state (req_action do_cont) (world_of stopped)).
  reflexivity.
Defined.

Lemma flag_set_only_by_update_state_witness :
  _no_state_update_pending (tgt (serve req_get_status (world_of fresh))) = false.
Proof.
  apply (flag_set_only_by_update_state req_get_status (world_of fresh));
    reflexivity.
Defined.

Lemma flag_cleared_only_by_run_control_witness :
  _no_state_update_pending
    (tgt (serve req_shutdown (snd (update_state STOPPED (world_of attached)))))
  = true.
Proof.
  apply (flag_cleared_only_by_run_control
           req_shutdown (snd (update_state STOPPED (world_of attached))));
    reflexivity.
Defined.

Lemma attributes_never_attached_witness :
  getattr (tgt (serve_all [req_action do_cont; req_update_state STOPPED;
                           req_get_status] (world_of attached))) exec_attr
  = getattr (tgt (world_of attached)) exec_attr
  /\ getattr (tgt (serve_all [req_shutdown; req_action read_word]
                             (world_of attached))) register_attr
     = None.
Proof.
  split.
  - apply (proj1 (attributes_never_attached
                    [req_action do_cont; req_update_state STOPPED; req_get_status]
                    (world_of attached) exec_attr)).
    reflexivity.
  - apply (proj2 (attributes_never_attached
                    [req_shutdown; req_action read_word]
                    (world_of attached) register_attr)).
    reflexivity.
Defined.

Lemma other_status_keys_are_kept_witness :
  status (tgt (serve_all [req_get_status; req_update_state STOPPED; req_get_status]
                         (world_of annotated))) !! "note"
  = status (tgt (world_of annotated)) !! "note".
Proof.
  apply (other_status_keys_are_kept
           [req_get_status; req_update_state STOPPED; req_get_status]
           (world_of annotated) "note").
  discriminate.
Defined.

Lemma shutdown_is_final_witness :
  perform do_cont (serve_all [req_update_state STOPPED]
                             (snd (shutdown (world_of attached))))
  = (Raise (capability_unavailable do_cont),
     serve_all [req_update_state STOPPED] (snd (shutdown (world_of attached)))).
Proof.
  apply (shutdown_is_final (world_of attached) (snd (shutdown (world_of attached)))
                           [req_update_state STOPPED] do_cont).
  vm_compute. reflexivity.
Defined.

Lemma shared_protocol_shut_down_per_attribute_witness :
  length (holders 7 shared) = 3
  /\ length (calls_to 7 (drop (length (calls (world_of shared)))
                              (calls (snd (shutdown (world_of shared))))))
     = length (holders 7 (tgt (world_of shared))).
Proof.
  split; [reflexivity|].
  apply (shared_protocol_shut_down_per_attribute
           (world_of shared) (snd (shutdown (world_of shared))) 7).
  vm_compute. reflexivity.
Defined.

Lemma wait_needs_a_stopped_report_witness :
  has_returned (snd (wait_under exiting_schedule (world_of attached))) = false.
Proof.
  apply (wait_needs_a_stopped_report exiting_schedule (world_of attached)).
  - discriminate.
  - reflexivity.
Defined.

Lemma wait_after_clear_needs_a_report_witness :
  has_returned (snd (wait_under reading_schedule after_cont)) = false.
Proof.
  apply (wait_after_clear_needs_a_report reading_schedule after_cont);
    reflexivity.
Defined.

Lemma stop_after_cont_waits_for_the_report_witness :
  stop (snd (cont (world_of stopped)))
  = (Raise (wrong_state do_stop STOPPED), snd (cont (world_of stopped)))
  /\ fst (stop (snd (update_state RUNNING (snd (cont (world_of stopped))))))
     = outcome_result
         (fst (invoke 1 call_stop (backend (snd (cont (world_of stopped)))))).
Proof.
  apply (stop_after_cont_waits_for_the_report (world_of stopped) 1);
    reflexivity.
Defined.

Lemma precondition_errors_are_told_apart_witness :
  action_name do_cont = action_name do_cont /\ CREATED = CREATED.
Proof.
  apply (proj2 (precondition_errors_are_told_apart do_cont do_cont CREATED CREATED)).
  reflexivity.
Defined.

Lemma wait_not_disturbed_by_other_requests_witness :
  has_returned
    (snd (wait_under reading_schedule
                     (snd (update_state STOPPED (world_of attached)))))
  = true.
Proof.
  apply (wait_not_disturbed_by_other_requests
           reading_schedule (snd (update_state STOPPED (world_of attached)))).
  - reflexivity.
  - reflexivity.
  - reflexivity.
  - vm_compute. lia.
Defined.

Lemma update_state_opens_the_guard_witness :
  fst (perform read_word (snd (update_state STOPPED (world_of attached))))
  = (if decide (STOPPED = spec_required_state read_word)
     then outcome_result
            (fst (invoke 2 (spec_forwarded read_word) (backend (world_of attached))))
     else Raise (wrong_state read_word STOPPED)).
Proof.
  apply (update_state_opens_the_guard STOPPED read_word (world_of attached) 2).
  reflexivity.
Defined.
End FurtherQuietRuns.

Section FurtherFailingRuns.
#[local] Existing Instance failing_backend.

Lemma shutdown_retry_resumes_at_failure_witness :
  exists (p : Protocol) (more : list (Protocol * Call)),
    last (calls (snd (shutdown (world_of flaky)))) = Some (p, call_shutdown)
    /\ calls (snd (shutdown (snd (shutdown (world_of flaky)))))
       = calls (snd (shutdown (world_of flaky))) ++ (p, call_shutdown) :: more.
Proof.
  apply (shutdown_retry_resumes_at_failure
           (world_of flaky) (snd (shutdown (world_of flaky)))
           (mkExn "RuntimeError" "connection lost")).
  vm_compute. reflexivity.
Defined.
End FurtherFailingRuns.
